(** * Lighthouse: coverage exceptions and the batch warning report

    A shallow embedding of [plugins/lighthouse/exceptions.py]: the
    [CoverageException] class hierarchy (class attributes [name] and
    [description], the [verbose] property, [__str__], the constructors) and
    the function [warn_errors], which dumps a batch of collected errors to
    the disassembler console and pops up one message box per error class.

    Python objects are modelled by records and inductive types, the calls
    into the collaborators ([lmsg], [disassembler.warning]) by a recorded
    sequence of events, raised exceptions by a result type, and the local
    variables of [warn_errors] by an explicit frame that is threaded through
    the function body. *)

From Stdlib Require Import List String Ascii Bool Arith Lia.
Import ListNotations.

Local Open Scope list_scope.
Local Open Scope string_scope.

(* ------------------------------------------------------------------------- *)
(** ** The fragment of the Python runtime the module relies on *)
(* ------------------------------------------------------------------------- *)

(** The line feed character, written [\n] in a Python literal. *)
Definition nl : string := String "010"%char EmptyString.

(** A Python string literal: the escape sequence [\n] stands for a line
    feed (the only escape the literals of this module use). *)
Fixpoint py_literal (s : string) : string :=
  match s with
  | String "\" (String "n" rest) => String "010"%char (py_literal rest)
  | String c rest => String c (py_literal rest)
  | EmptyString => EmptyString
  end.

(** [s * n] on a string: [n] copies of [s]. *)
Fixpoint str_mul (s : string) (n : nat) : string :=
  match n with
  | O => EmptyString
  | S n' => s ++ str_mul s n'
  end.

(** [fmt % args] restricted to the [%s] directive, the only one this module
    uses: each [%s] is replaced by the next argument.  A directive with no
    argument left is kept as it is (Python raises [TypeError] there; every
    format of this module is applied to as many arguments as it has
    directives). *)
Fixpoint py_format (fmt : string) (args : list string) : string :=
  match fmt with
  | String "%" (String "s" rest) =>
      match args with
      | a :: args' => a ++ py_format rest args'
      | [] => String "%" (String "s" (py_format rest []))
      end
  | String c rest => String c (py_format rest args)
  | EmptyString => EmptyString
  end.

(** Exceptions raised by the code below. *)
Inductive PyError : Type :=
| TypeError                          (* a call with the wrong number of arguments *)
| AttributeError (attr : string)     (* [obj.attr] on an object without [attr] *)
| UnboundLocalError (var : string)   (* a local variable read before it is bound *)
| HostError.                         (* raised by the host's notification primitive *)

Inductive result (A : Type) : Type :=
| Ok (a : A)
| Raise (e : PyError).
Arguments Ok {A} a.
Arguments Raise {A} e.

(* ------------------------------------------------------------------------- *)
(** ** Exception definitions *)
(* ------------------------------------------------------------------------- *)

(** The classes of the hierarchy below [LighthouseError]: the base class
    [CoverageException] and its four subclasses. *)
Inductive exc_class : Type :=
| CoverageException
| CoverageParsingError
| CoverageMissingError
| CoverageMappingAbsent
| CoverageMappingSuspicious.

Definition exc_class_eqb (a b : exc_class) : bool :=
  match a, b with
  | CoverageException, CoverageException
  | CoverageParsingError, CoverageParsingError
  | CoverageMissingError, CoverageMissingError
  | CoverageMappingAbsent, CoverageMappingAbsent
  | CoverageMappingSuspicious, CoverageMappingSuspicious => true
  | _, _ => false
  end.

(** The value of a class attribute: a string, or, in the base class, the
    builtin class object [NotImplementedError] used as a placeholder. *)
Inductive class_attr : Type :=
| AttrStr (s : string)
| AttrNotImplementedError.

(** What [%s] makes of a class attribute ([str] of the value).  The module
    runs on Python 3 (it goes through the [iteritems] compatibility helper);
    there [str] of the builtin class is the text below. *)
Definition py_str (a : class_attr) : string :=
  match a with
  | AttrStr s => s
  | AttrNotImplementedError => "<class 'NotImplementedError'>"
  end.

(** Class attribute [name]. *)
Definition name (c : exc_class) : class_attr :=
  match c with
  | CoverageException => AttrNotImplementedError
  | CoverageParsingError => AttrStr "PARSE_FAILURE"
  | CoverageMissingError => AttrStr "NO_COVERAGE_ERROR"
  | CoverageMappingAbsent => AttrStr "NO_COVERAGE_MAPPED"
  | CoverageMappingSuspicious => AttrStr "BAD_COVERAGE_MAPPING"
  end.

(** Class attribute [description]: the adjacent literals of the source,
    concatenated. *)
Definition description (c : exc_class) : class_attr :=
  match c with
  | CoverageException => AttrNotImplementedError
  | CoverageParsingError => AttrStr (py_literal (
      "Failed to parse one or more of the selected coverage files!\n\n" ++
      " Possible reasons:\n" ++
      " - You selected a file that was *not* a coverage file.\n" ++
      " - The selected coverage file is malformed or unreadable.\n" ++
      " - A suitable parser for the coverage file is not installed.\n\n" ++
      "Please see the disassembler console for more info..."))
  | CoverageMissingError => AttrStr (py_literal (
      "No usable coverage data was extracted from one of the selected files.\n\n" ++
      " Possible reasons:\n" ++
      " - You selected a coverage file for the wrong binary.\n" ++
      " - The name of the executable file used to generate this database\n" ++
      "    is different than the one you collected coverage against.\n" ++
      " - Your DBI failed to collect any coverage for this binary.\n\n" ++
      "Please see the disassembler console for more info..."))
  | CoverageMappingAbsent => AttrStr (py_literal (
      "One or more of the loaded coverage files has no visibly mapped data.\n\n" ++
      " Possible reasons:\n" ++
      " - The loaded coverage data does not fall within defined functions.\n" ++
      " - You loaded an absolute address trace with a different imagebase.\n" ++
      " - The coverage data might be corrupt or malformed.\n\n" ++
      "Please see the disassembler console for more info..."))
  | CoverageMappingSuspicious => AttrStr (py_literal (
      "One or more of the loaded coverage files appears to be badly mapped.\n\n" ++
      " Possible reasons:\n" ++
      " - You selected the wrong binary/module to load coverage from.\n" ++
      " - Your coverage file/data is for a different version of the\n" ++
      "   binary that does not match what the disassembler has open.\n" ++
      " - You recorded self-modifying code or something with very\n" ++
      "    abnormal control flow (obfuscated code, malware, packers).\n" ++
      " - The coverage data might be corrupt or malformed.\n\n" ++
      "This means that any coverage displayed by Lighthouse is PROBABLY\n" ++
      "WRONG and is not be trusted because the coverage data does not\n" ++
      "appear to match the disassembled binary."))
  end.

(** Modelled from the spec: the coverage-file object handed to the two
    mapping warnings, that is, any object with a [filepath] attribute.  Its
    class is not among the sources; this module reads only that attribute,
    [coverage_id] stands for the object's identity. *)
Record Coverage : Type := mkCoverage {
  coverage_id : nat;
  coverage_filepath : string;
}.

(** The values a caller may pass where a coverage object is expected. *)
Inductive PyValue : Type :=
| PyNone
| PyStr (s : string)
| PyCoverage (c : Coverage).

(** [obj.filepath] *)
Definition getattr_filepath (obj : PyValue) : result string :=
  match obj with
  | PyCoverage c => Ok (coverage_filepath c)
  | PyNone | PyStr _ => Raise (AttributeError "filepath")
  end.

(** The attributes a subclass constructor adds to the instance:
    [self.tracebacks] (parser name and traceback text, per parser tried) or
    [self.coverage] (the object as it was passed). *)
Inductive payload : Type :=
| NoPayload
| Tracebacks (tracebacks : list (string * string))
| CoverageRef (coverage : PyValue).

(** An instance of one of the classes, with the attributes the constructors
    give it: [args], the arguments the builtin [Exception] constructor was
    called with, [filepath], which [CoverageException.__init__] sets, and
    what a subclass adds.  No constructor assigns a [message] attribute, and
    the builtin exceptions of Python 3 have none. *)
Record exc : Type := mkExc {
  cls : exc_class;
  args : list string;
  filepath : string;
  extra : payload;
}.

(** [CoverageException.__init__(self, message, filepath)], [self] being an
    instance of class [c]: the call of the constructor of the super class,
    [LighthouseError], which hands [message] on to [Exception], then the
    assignment of [self.filepath]. *)
Definition CoverageException_init (c : exc_class) (message filepath : string) : exc :=
  {| cls := c; args := [message]; filepath := filepath; extra := NoPayload |}.

(** The [verbose] property. *)
Definition verbose (self : exc) : string :=
  py_format (py_literal "Error: %s\n\n%s")
            [py_str (name (cls self)); py_str (description (cls self))].

(** The value an attribute lookup gives. *)
Inductive PyAttr : Type :=
| VString (s : string)
| VTuple (items : list string)
| VClassAttr (a : class_attr)
| VTracebacks (tracebacks : list (string * string))
| VObject (obj : PyValue).

(** [self.attr]: the attributes of the instance ([args], [filepath] and
    [tracebacks] or [coverage] where a subclass set it), the class
    attributes [name] and [description] and the property [verbose]; any
    other name is an [AttributeError]. *)
Definition getattr (self : exc) (attr : string) : result PyAttr :=
  if (attr =? "args")%string then Ok (VTuple (args self))
  else if (attr =? "filepath")%string then Ok (VString (filepath self))
  else if (attr =? "name")%string then Ok (VClassAttr (name (cls self)))
  else if (attr =? "description")%string then Ok (VClassAttr (description (cls self)))
  else if (attr =? "verbose")%string then Ok (VString (verbose self))
  else
    match extra self with
    | Tracebacks tb =>
        if (attr =? "tracebacks")%string then Ok (VTracebacks tb)
        else Raise (AttributeError attr)
    | CoverageRef obj =>
        if (attr =? "coverage")%string then Ok (VObject obj)
        else Raise (AttributeError attr)
    | NoPayload => Raise (AttributeError attr)
    end.

(** [CoverageException.__str__]: the left operand [self.message] is
    evaluated first; the sum is the message and the formatted file path. *)
Definition __str__ (self : exc) : result string :=
  match getattr self "message" with
  | Ok (VString message) => Ok (message ++ py_format " '%s'" [filepath self])
  | Ok _ => Raise TypeError
  | Raise e => Raise e
  end.

(** An attribute assignment [self.tracebacks = ...] or [self.coverage = ...]
    after the base constructor has run. *)
Definition set_extra (self : exc) (p : payload) : exc :=
  match self with
  | mkExc c m f _ => mkExc c m f p
  end.

(** [CoverageParsingError(filepath, tracebacks)] *)
Definition CoverageParsingError_init (filepath : string)
    (tracebacks : list (string * string)) : exc :=
  let self := CoverageException_init CoverageParsingError
                "Failed to parse coverage file" filepath in
  set_extra self (Tracebacks tracebacks).

(** [CoverageMissingError(filepath)] *)
Definition CoverageMissingError_init (filepath : string) : exc :=
  CoverageException_init CoverageMissingError "No coverage extracted from file" filepath.

(** A call of a class whose [__init__(self, coverage)] takes one required
    argument: any other number of arguments is a [TypeError].  The body
    reads [coverage.filepath] for the base constructor and then keeps the
    object in [self.coverage]. *)
Definition mapping_init (c : exc_class) (message : string) (args : list PyValue)
  : result exc :=
  match args with
  | [coverage] =>
      match getattr_filepath coverage with
      | Ok path =>
          let self := CoverageException_init c message path in
          Ok (set_extra self (CoverageRef coverage))
      | Raise e => Raise e
      end
  | _ => Raise TypeError
  end.

(** [CoverageMappingAbsent(coverage)] *)
Definition CoverageMappingAbsent_init (args : list PyValue) : result exc :=
  mapping_init CoverageMappingAbsent "No coverage data could be mapped" args.

(** [CoverageMappingSuspicious(coverage)] *)
Definition CoverageMappingSuspicious_init (args : list PyValue) : result exc :=
  mapping_init CoverageMappingSuspicious "Coverage data appears badly mapped" args.


(* ------------------------------------------------------------------------- *)
(** ** Collaborators, frame and the monad of [warn_errors] *)
(* ------------------------------------------------------------------------- *)

(** A batch of errors: the dict from error class to the list of its
    instances, held as its (key, value) pairs in the dict's iteration order.
    A dict has each key once: [NoDup (map fst errors)] is assumed where a
    statement depends on it. *)
Definition Batch : Type := list (exc_class * list exc).

(** A call into a collaborator: a line handed to [lmsg], or a text handed to
    [disassembler.warning]. *)
Inductive Event : Type :=
| Lmsg (line : string)
| Warning (text : string).

(** The frame of one call of [warn_errors]: the two argument objects, which
    the caller shares, and the local variable [error] of the inner loop
    ([None] while it is unbound). *)
Record Frame : Type := mkFrame {
  errors : Batch;
  ignore : list exc_class;
  error : option exc;
}.

(** What running a piece of the function gives: the calls it made, the frame
    it left and its value or the exception it raised. *)
Record Run (A : Type) : Type := mkRun {
  events : list Event;
  frame : Frame;
  outcome : result A;
}.
Arguments mkRun {A} events frame outcome.
Arguments events {A} r.
Arguments frame {A} r.
Arguments outcome {A} r.

Definition M (A : Type) : Type := Frame -> Run A.

Definition ret {A : Type} (a : A) : M A :=
  fun fr => mkRun [] fr (Ok a).

Definition bind {A B : Type} (m : M A) (k : A -> M B) : M B :=
  fun fr =>
    let r := m fr in
    match outcome r with
    | Ok a =>
        let r' := k a (frame r) in
        mkRun (events r ++ events r') (frame r') (outcome r')
    | Raise e => mkRun (events r) (frame r) (Raise e)
    end.

Declare Scope py_scope.
Delimit Scope py_scope with py.
Notation "x <- m ;; k" := (bind m (fun x => k))
  (at level 61, m at next level, right associativity) : py_scope.
Notation "m ;; k" := (bind m (fun _ => k))
  (at level 61, right associativity) : py_scope.
Local Open Scope py_scope.

(** [for x in xs: body] *)
Fixpoint for_each {A : Type} (xs : list A) (body : A -> M unit) : M unit :=
  match xs with
  | [] => ret tt
  | x :: xs' => body x ;; for_each xs' body
  end.

(** Reading the arguments and the local variable; binding the local. *)
Definition load_errors : M Batch := fun fr => mkRun [] fr (Ok (errors fr)).
Definition load_ignore : M (list exc_class) := fun fr => mkRun [] fr (Ok (ignore fr)).
Definition load_error : M exc :=
  fun fr =>
    match error fr with
    | Some e => mkRun [] fr (Ok e)
    | None => mkRun [] fr (Raise (UnboundLocalError "error"))
    end.
Definition store_error (e : exc) : M unit :=
  fun fr => mkRun [] (mkFrame (errors fr) (ignore fr) (Some e)) (Ok tt).

(** Modelled from the spec: [lmsg] of [lighthouse.util.log], which is not
    among the sources.  The log sink accepts arbitrary text lines, is
    append-only, returns nothing and is assumed always available. *)
Definition lmsg (line : string) : M unit :=
  fun fr => mkRun [Lmsg line] fr (Ok tt).

(** Modelled from the spec: [iteritems] of [lighthouse.util.misc], which is
    not among the sources: the entries of the batch in the batch's own
    iteration order. *)
Definition iteritems (d : Batch) : list (exc_class * list exc) := d.

(** [not d] on a dict: true when it is empty. *)
Definition py_not (d : Batch) : bool :=
  match d with
  | [] => true
  | _ :: _ => false
  end.

(** [c in l] on a list of classes. *)
Definition py_in (c : exc_class) (l : list exc_class) : bool :=
  existsb (exc_class_eqb c) l.

(** The default value of the parameter [ignore]. *)
Definition default_ignore : list exc_class := [].

(** The frame a call [warn_errors(errors, ignore)] starts in. *)
Definition new_frame (errors : Batch) (ignore : list exc_class) : Frame :=
  mkFrame errors ignore None.

(* ------------------------------------------------------------------------- *)
(** ** UI warnings *)
(* ------------------------------------------------------------------------- *)

Section WarnErrors.

(** The host environment: [host text] tells whether its message box, asked
    to show [text], returns normally ([true]) or raises ([false], as when
    the primitive is unavailable in headless mode). *)
Variable host : string -> bool.

(** Modelled from the spec: [disassembler.warning] of
    [lighthouse.util.disassembler], which is not among the sources.  The
    user-notification primitive takes one formatted text, shows it to the
    operator and returns nothing meaningful; its failure is an exception. *)
Definition disassembler_warning (text : string) : M unit :=
  fun fr => mkRun [Warning text] fr (if host text then Ok tt else Raise HostError).

(** The body of the loop over the items of the batch. *)
Definition warn_errors_body (item : exc_class * list exc) : M unit :=
  let '(error_type, error_list) := item in
  lmsg (str_mul "-" 50) ;;
  lmsg (py_format "Files reporting %s:" [py_str (name error_type)]) ;;
  for_each error_list (fun e =>
    store_error e ;;
    error <- load_error ;;
    lmsg (py_format " - %s" [filepath error])) ;;
  ignore <- load_ignore ;;
  if py_in error_type ignore then
    ret tt                                   (* continue *)
  else
    error <- load_error ;;
    disassembler_warning (verbose error).

(** The function from the loop head on, [items] being the items still to
    be visited: the rest of the loop, then the closing separator. *)
Definition warn_errors_from (items : list (exc_class * list exc)) : M unit :=
  for_each items warn_errors_body ;;
  lmsg (str_mul "-" 50).

(** [warn_errors(errors, ignore)] *)
Definition warn_errors : M unit :=
  errors <- load_errors ;;
  if py_not errors then
    ret tt                                   (* return *)
  else
    warn_errors_from (iteritems errors).

End WarnErrors.

(* ------------------------------------------------------------------------- *)
(** ** Calls of [warn_errors], one after the other *)
(* ------------------------------------------------------------------------- *)



(* ------------------------------------------------------------------------- *)
(** ** Vocabulary of the statements *)
(* ------------------------------------------------------------------------- *)

(** The text of a message box, line by line: the verbose message of each
    class, written out. *)
Definition verbose_text (c : exc_class) : string :=
  String.concat nl
    match c with
    | CoverageException =>
        ["Error: <class 'NotImplementedError'>";
         "";
         "<class 'NotImplementedError'>"]
    | CoverageParsingError =>
        ["Error: PARSE_FAILURE";
         "";
         "Failed to parse one or more of the selected coverage files!";
         "";
         " Possible reasons:";
         " - You selected a file that was *not* a coverage file.";
         " - The selected coverage file is malformed or unreadable.";
         " - A suitable parser for the coverage file is not installed.";
         "";
         "Please see the disassembler console for more info..."]
    | CoverageMissingError =>
        ["Error: NO_COVERAGE_ERROR";
         "";
         "No usable coverage data was extracted from one of the selected files.";
         "";
         " Possible reasons:";
         " - You selected a coverage file for the wrong binary.";
         " - The name of the executable file used to generate this database";
         "    is different than the one you collected coverage against.";
         " - Your DBI failed to collect any coverage for this binary.";
         "";
         "Please see the disassembler console for more info..."]
    | CoverageMappingAbsent =>
        ["Error: NO_COVERAGE_MAPPED";
         "";
         "One or more of the loaded coverage files has no visibly mapped data.";
         "";
         " Possible reasons:";
         " - The loaded coverage data does not fall within defined functions.";
         " - You loaded an absolute address trace with a different imagebase.";
         " - The coverage data might be corrupt or malformed.";
         "";
         "Please see the disassembler console for more info..."]
    | CoverageMappingSuspicious =>
        ["Error: BAD_COVERAGE_MAPPING";
         "";
         "One or more of the loaded coverage files appears to be badly mapped.";
         "";
         " Possible reasons:";
         " - You selected the wrong binary/module to load coverage from.";
         " - Your coverage file/data is for a different version of the";
         "   binary that does not match what the disassembler has open.";
         " - You recorded self-modifying code or something with very";
         "    abnormal control flow (obfuscated code, malware, packers).";
         " - The coverage data might be corrupt or malformed.";
         "";
         "This means that any coverage displayed by Lighthouse is PROBABLY";
         "WRONG and is not be trusted because the coverage data does not";
         "appear to match the disassembled binary."]
    end.

(** The separator line, fifty dashes. *)
Definition separator : string :=
  "--------------------------------------------------".

(** The header line of an error class. *)
Definition header (error_type : exc_class) : string :=
  "Files reporting " ++ py_str (name error_type) ++ ":".

(** The log line of one instance. *)
Definition path_line (e : exc) : string := " - " ++ filepath e.

(** The group of log lines of one class: separator, header and one line per
    instance, in the order of the list. *)
Definition kind_log (error_type : exc_class) (error_list : list exc) : list Event :=
  Lmsg separator :: Lmsg (header error_type) :: map (fun e => Lmsg (path_line e)) error_list.

(** The last instance of a list, if it has one. *)
Fixpoint last_error (l : list exc) : option exc :=
  match l with
  | [] => None
  | [e] => Some e
  | _ :: l' => last_error l'
  end.

(** The value of the local [error] once the inner loop has run over [l]. *)
Definition error_after (l : list exc) (before : option exc) : option exc :=
  match last_error l with
  | Some e => Some e
  | None => before
  end.

(** The lines logged and the texts shown, in order. *)
Definition log_lines (evs : list Event) : list string :=
  flat_map (fun ev => match ev with Lmsg s => [s] | Warning _ => [] end) evs.

Definition notifications (evs : list Event) : list string :=
  flat_map (fun ev => match ev with Warning t => [t] | Lmsg _ => [] end) evs.

(** The report of a class in full: its log lines, then, unless the class is
    ignored, one message box with the verbose message of its last
    instance. *)
Definition kind_report (ig : list exc_class) (it : exc_class * list exc) : list Event :=
  kind_log (fst it) (snd it) ++
  (if py_in (fst it) ig then []
   else match last_error (snd it) with
        | Some e => [Warning (verbose e)]
        | None => []
        end).

(** The report of a batch in full: the report of each class, in the
    iteration order of the batch, then the closing separator. *)
Definition batch_report (ig : list exc_class) (d : Batch) : list Event :=
  flat_map (kind_report ig) d ++ [Lmsg separator].

(** The number of separator lines logged. *)
Definition separator_lines (evs : list Event) : nat :=
  List.length (filter (fun s => String.eqb s separator) (log_lines evs)).

(** The number of classes of the batch that have at least one instance. *)
Definition kinds_with_instances (d : Batch) : nat :=
  List.length (filter (fun it => match snd it with [] => false | _ :: _ => true end) d).

(** Every class of the batch has at least one instance. *)
Definition no_empty_list (d : Batch) : Prop :=
  forall error_type error_list, In (error_type, error_list) d -> error_list <> [].

(** A constructor that cannot be called without a coverage object: no
    argument is a [TypeError], [None] an [AttributeError], and a call that
    succeeds was given one coverage object, whose [filepath] became the file
    path of the instance and which the instance keeps. *)
Definition requires_coverage (init : list PyValue -> result exc) : Prop :=
  init [] = Raise TypeError /\
  init [PyNone] = Raise (AttributeError "filepath") /\
  (forall (args : list PyValue) (self : exc),
      init args = Ok self ->
      exists coverage : Coverage,
        args = [PyCoverage coverage] /\
        filepath self = coverage_filepath coverage /\
        extra self = CoverageRef (PyCoverage coverage)) /\
  (forall coverage : Coverage,
      exists self : exc,
        init [PyCoverage coverage] = Ok self /\
        filepath self = coverage_filepath coverage).

(** The log of a batch in full: for each class the separator, the header
    and one line per instance, then the closing separator. *)
Definition full_log (d : Batch) : list string :=
  flat_map (fun it => separator :: header (fst it) :: map path_line (snd it)) d ++
  [separator].

(** Whether the loop comes to a class that is not ignored while [error] is
    still unbound: the classes before it are all ignored and, like it, have
    no instance. *)
Fixpoint unbound_read (ig : list exc_class) (items : list (exc_class * list exc)) : bool :=
  match items with
  | [] => false
  | (error_type, []) :: rest =>
      if py_in error_type ig then unbound_read ig rest else true
  | (_, _ :: _) :: _ => false
  end.

(** The classes of the batch that are not ignored, and all its instances. *)
Definition not_ignored (ig : list exc_class) (d : Batch) : list (exc_class * list exc) :=
  filter (fun it => negb (py_in (fst it) ig)) d.

Definition instances (d : Batch) : list exc := flat_map snd d.

(* ------------------------------------------------------------------------- *)
(** ** Sample hosts, instances and batches *)
(* ------------------------------------------------------------------------- *)

(** A host whose message box always returns, and a headless one whose
    message box always raises. *)
Definition host_available : string -> bool := fun _ => true.
Definition host_headless : string -> bool := fun _ => false.


Definition parse_a : exc := CoverageParsingError_init "a.cov" [("drcov", "Traceback")].
Definition missing_b : exc := CoverageMissingError_init "b.cov".
Definition missing_c : exc := CoverageMissingError_init "c.cov".

(** Two classes with instances. *)
Definition batch_two_kinds : Batch :=
  [(CoverageParsingError, [parse_a]); (CoverageMissingError, [missing_b; missing_c])].

(** The first class visited has an empty list of instances. *)
Definition batch_empty_first : Batch :=
  [(CoverageParsingError, []); (CoverageMissingError, [missing_b])].

(** A single class, with an empty list of instances. *)
Definition batch_only_empty : Batch := [(CoverageParsingError, [])].

(** A class with instances, then a class with an empty list. *)
Definition batch_empty_second : Batch :=
  [(CoverageMissingError, [missing_b]); (CoverageParsingError, [])].

(** A class whose last instance differs in class from its first, then a
    class with an empty list. *)
Definition batch_stale : Batch :=
  [(CoverageMissingError, [parse_a; missing_c]); (CoverageParsingError, [])].

(** Two coverage objects and the warnings built from them. *)
Definition cov_b : Coverage := mkCoverage 1 "b.cov".
Definition cov_c : Coverage := mkCoverage 2 "c.cov".
Definition suspicious (c : Coverage) : exc :=
  mkExc CoverageMappingSuspicious ["Coverage data appears badly mapped"]
        (coverage_filepath c) (CoverageRef (PyCoverage c)).

(** Every class ignored, one of them without instance. *)
Definition batch_all_ignored : Batch :=
  [(CoverageParsingError, []); (CoverageMissingError, [missing_b; missing_c])].

(** One parse failure and two suspicious mappings. *)
Definition batch_scenario : Batch :=
  [(CoverageParsingError, [parse_a]);
   (CoverageMappingSuspicious, [suspicious cov_b; suspicious cov_c])].

(* ------------------------------------------------------------------------- *)
(** ** Lemmas on the runtime fragment and the monad *)
(* ------------------------------------------------------------------------- *)

Lemma exc_class_eqb_eq (a b : exc_class) : exc_class_eqb a b = true <-> a = b.
Proof. destruct a, b; simpl; split; intro H; congruence. Qed.

Lemma py_in_In (c : exc_class) (l : list exc_class) : py_in c l = true <-> In c l.
Proof.
  unfold py_in. rewrite existsb_exists. split.
  - intros [x [Hx Heq]]. apply exc_class_eqb_eq in Heq. now subst.
  - intro H. exists c. split; [exact H | now apply exc_class_eqb_eq].
Qed.

Lemma py_in_not_In (c : exc_class) (l : list exc_class) : py_in c l = false <-> ~ In c l.
Proof.
  rewrite <- py_in_In. destruct (py_in c l); split; intro H; congruence.
Qed.

Lemma separator_is_fifty_dashes : str_mul "-" 50 = separator.
Proof. reflexivity. Qed.

Lemma header_format (c : exc_class) :
  py_format "Files reporting %s:" [py_str (name c)] = header c.
Proof. reflexivity. Qed.

Lemma append_empty_r (s : string) : s ++ "" = s.
Proof. induction s as [|c s IH]; simpl; [reflexivity | now rewrite IH]. Qed.

Lemma path_line_format (e : exc) : py_format " - %s" [filepath e] = path_line e.
Proof. unfold path_line. simpl. now rewrite append_empty_r. Qed.

Lemma last_error_cons (x : exc) (l : list exc) :
  l <> [] -> last_error (x :: l) = last_error l.
Proof. destruct l; [congruence | reflexivity]. Qed.

Lemma last_error_nonempty (l : list exc) : l <> [] -> exists e, last_error l = Some e.
Proof.
  induction l as [|x l IH]; [congruence|]. intros _.
  destruct l as [|y l']; [now exists x|].
  destruct IH as [e He]; [discriminate|]. exists e. exact He.
Qed.

Lemma error_after_cons (x : exc) (l : list exc) (b : option exc) :
  error_after (x :: l) b = error_after l (Some x).
Proof.
  unfold error_after. destruct l as [|y l']; [reflexivity|].
  rewrite last_error_cons by discriminate.
  destruct (last_error_nonempty (y :: l')) as [e He]; [discriminate|].
  now rewrite He.
Qed.

Lemma error_after_last (l : list exc) (e : exc) (b : option exc) :
  last_error l = Some e -> error_after l b = Some e.
Proof. unfold error_after. now intros ->. Qed.

Lemma frame_eta (fr : Frame) : mkFrame (errors fr) (ignore fr) (error fr) = fr.
Proof. now destruct fr. Qed.

Lemma bind_unfold {A B : Type} (m : M A) (k : A -> M B) (fr : Frame) :
  bind m k fr =
  match outcome (m fr) with
  | Ok a => mkRun (events (m fr) ++ events (k a (frame (m fr))))
                  (frame (k a (frame (m fr)))) (outcome (k a (frame (m fr))))
  | Raise e => mkRun (events (m fr)) (frame (m fr)) (Raise e)
  end.
Proof. reflexivity. Qed.

Lemma for_each_app {A : Type} (xs ys : list A) (body : A -> M unit) (fr : Frame) :
  for_each (xs ++ ys) body fr = (for_each xs body ;; for_each ys body) fr.
Proof.
  revert fr. induction xs as [|x xs IH]; intro fr.
  - simpl. rewrite bind_unfold. simpl. now destruct (for_each ys body fr).
  - simpl. rewrite !bind_unfold.
    destruct (outcome (body x fr)) as [[]|e]; [|reflexivity].
    rewrite IH, !bind_unfold.
    destruct (outcome (for_each xs body (frame (body x fr)))) as [[]|e]; simpl.
    + now rewrite app_assoc.
    + reflexivity.
Qed.

(** The inner loop logs one line per instance and leaves [error] bound to
    the last instance, or as it was when the list is empty. *)
Lemma inner_loop_run (l : list exc) (fr : Frame) :
  for_each l (fun e =>
    store_error e ;;
    error <- load_error ;;
    lmsg (py_format " - %s" [filepath error])) fr
  = mkRun (map (fun e => Lmsg (path_line e)) l)
          (mkFrame (errors fr) (ignore fr) (error_after l (error fr)))
          (Ok tt).
Proof.
  revert fr. induction l as [|x l IH]; intro fr.
  - simpl. unfold ret, error_after. simpl. now rewrite frame_eta.
  - cbn [for_each]. rewrite bind_unfold.
    assert (Hx : (store_error x ;; error <- load_error ;;
                  lmsg (py_format " - %s" [filepath error])) fr
                 = mkRun [Lmsg (path_line x)]
                         (mkFrame (errors fr) (ignore fr) (Some x)) (Ok tt)).
    { unfold bind, store_error, load_error, lmsg. cbn.
      now rewrite append_empty_r. }
    rewrite Hx. cbn [outcome events frame]. rewrite IH. cbn.
    now rewrite error_after_cons.
Qed.

Section WarnErrorsLemmas.

Variable host : string -> bool.

(** One iteration of the outer loop, in closed form. *)
Lemma warn_errors_body_run (k : exc_class) (l : list exc) (fr : Frame) :
  warn_errors_body host (k, l) fr =
  let fr' := mkFrame (errors fr) (ignore fr) (error_after l (error fr)) in
  if py_in k (ignore fr) then mkRun (kind_log k l) fr' (Ok tt)
  else match error_after l (error fr) with
       | Some e => mkRun (kind_log k l ++ [Warning (verbose e)]) fr'
                         (if host (verbose e) then Ok tt else Raise HostError)
       | None => mkRun (kind_log k l) fr' (Raise (UnboundLocalError "error"))
       end.
Proof.
  unfold warn_errors_body.
  rewrite bind_unfold. cbn [lmsg outcome events frame].
  rewrite bind_unfold. cbn [lmsg outcome events frame].
  rewrite bind_unfold, inner_loop_run. cbn [outcome events frame].
  rewrite bind_unfold. cbn [load_ignore outcome events frame ignore].
  rewrite separator_is_fifty_dashes, header_format.
  cbv zeta. unfold kind_log.
  destruct (py_in k (ignore fr)).
  - cbn [ret outcome events frame app]. now rewrite !app_nil_r.
  - rewrite bind_unfold. unfold load_error. cbn [error].
    destruct (error_after l (error fr)) as [e|];
      cbn [disassembler_warning outcome events frame app];
      now rewrite ?app_nil_r.
Qed.

(** The loop writes to neither argument object. *)
Lemma warn_errors_body_frame (it : exc_class * list exc) (fr : Frame) :
  errors (frame (warn_errors_body host it fr)) = errors fr /\
  ignore (frame (warn_errors_body host it fr)) = ignore fr.
Proof.
  destruct it as [k l]. rewrite warn_errors_body_run. cbv zeta.
  destruct (py_in k (ignore fr)); [now split|].
  destruct (error_after l (error fr)); now split.
Qed.

Lemma warn_errors_loop_frame (items : list (exc_class * list exc)) (fr : Frame) :
  errors (frame (for_each items (warn_errors_body host) fr)) = errors fr /\
  ignore (frame (for_each items (warn_errors_body host) fr)) = ignore fr.
Proof.
  revert fr. induction items as [|it items IH]; intro fr; [now split|].
  cbn [for_each]. rewrite bind_unfold.
  destruct (warn_errors_body_frame it fr) as [He Hi].
  destruct (outcome (warn_errors_body host it fr)) as [[]|e]; cbn [frame].
  - destruct (IH (frame (warn_errors_body host it fr))) as [He' Hi'].
    split; congruence.
  - now split.
Qed.

End WarnErrorsLemmas.

(* ------------------------------------------------------------------------- *)
(** ** The exception classes *)
(* ------------------------------------------------------------------------- *)

(** C4, on the code: [__str__] reads [self.message], which no constructor
    assigns: the message handed to [CoverageException.__init__] is kept in
    [args].  So the short rendering of every instance raises
    [AttributeError] instead of giving the message, a space and the file
    path between single quotes. *)
Theorem str_raises_attribute_error :
  (forall self : exc, __str__ self = Raise (AttributeError "message")) /\
  (forall (c : exc_class) (m p : string),
      args (CoverageException_init c m p) = [m] /\
      filepath (CoverageException_init c m p) = p /\
      __str__ (CoverageException_init c m p) = Raise (AttributeError "message")).
Proof.
  assert (H : forall self : exc, __str__ self = Raise (AttributeError "message")).
  { intro self. unfold __str__, getattr. cbn. now destruct (extra self). }
  split; [exact H|]. intros c m p. split; [reflexivity|]. split; [reflexivity|]. apply H.
Qed.

(** C10: the verbose message of an instance is "Error: ", the name of its
    class, an empty line and the description of its class: for the four
    subclasses the names PARSE_FAILURE, NO_COVERAGE_ERROR,
    NO_COVERAGE_MAPPED and BAD_COVERAGE_MAPPING, each with its own fixed
    description, as written out in [verbose_text].  It does not depend on
    the message, the file path or the payload of the instance, so two
    instances of one class have the same verbose message. *)
Theorem verbose_depends_on_class_only :
  (forall self : exc,
      verbose self =
      "Error: " ++ py_str (name (cls self)) ++ nl ++ nl ++ py_str (description (cls self))) /\
  (name CoverageParsingError = AttrStr "PARSE_FAILURE" /\
   name CoverageMissingError = AttrStr "NO_COVERAGE_ERROR" /\
   name CoverageMappingAbsent = AttrStr "NO_COVERAGE_MAPPED" /\
   name CoverageMappingSuspicious = AttrStr "BAD_COVERAGE_MAPPING") /\
  (forall self : exc, verbose self = verbose_text (cls self)) /\
  (forall (c : exc_class) (a a' : list string) (p p' : string) (x x' : payload),
      verbose (mkExc c a p x) = verbose (mkExc c a' p' x')) /\
  (forall e1 e2 : exc, cls e1 = cls e2 -> verbose e1 = verbose e2).
Proof.
  split; [|split; [|split; [|split]]].
  - intro self. unfold verbose. cbn. now rewrite append_empty_r.
  - repeat split.
  - intro self. unfold verbose. destruct (cls self); vm_compute; reflexivity.
  - reflexivity.
  - intros e1 e2 H. unfold verbose. now rewrite H.
Qed.

(** C8: [CoverageMappingAbsent] and [CoverageMappingSuspicious] cannot be
    built without a coverage object: a call without argument raises
    [TypeError], a call with [None] raises [AttributeError], and whenever
    the call succeeds its argument was one coverage object, whose [filepath]
    is the file path of the instance (and which the instance keeps). *)
Theorem mapping_warnings_require_coverage :
  requires_coverage CoverageMappingAbsent_init /\
  requires_coverage CoverageMappingSuspicious_init.
Proof.
  split; (split; [reflexivity|]; split; [reflexivity|]; split).
  1,3: intros args self H;
       destruct args as [|v [|w args]]; try discriminate;
       destruct v as [| s | cov]; try discriminate;
       injection H as <-; exists cov; repeat split.
  all: intro cov; eexists; split; reflexivity.
Qed.

(* ------------------------------------------------------------------------- *)
(** ** The steps of [warn_errors] *)
(* ------------------------------------------------------------------------- *)

Lemma run_eta {A : Type} (r : Run A) : mkRun (events r) (frame r) (outcome r) = r.
Proof. now destruct r. Qed.

Lemma bind_assoc {A B C : Type} (m : M A) (k : A -> M B) (h : B -> M C) (fr : Frame) :
  bind (bind m k) h fr = bind m (fun a => bind (k a) h) fr.
Proof.
  rewrite !bind_unfold.
  destruct (outcome (m fr)) as [a|e]; cbn [outcome events frame]; [|reflexivity].
  rewrite !bind_unfold.
  destruct (outcome (k a (frame (m fr)))) as [b|e]; cbn [outcome events frame];
    [now rewrite app_assoc | reflexivity].
Qed.

Section WarnErrorsSteps.

Variable host : string -> bool.

Lemma warn_errors_from_nil (fr : Frame) :
  warn_errors_from host [] fr = mkRun [Lmsg separator] fr (Ok tt).
Proof. reflexivity. Qed.

Lemma warn_errors_from_cons (it : exc_class * list exc)
      (items : list (exc_class * list exc)) (fr : Frame) :
  warn_errors_from host (it :: items) fr =
  (warn_errors_body host it ;; warn_errors_from host items) fr.
Proof. unfold warn_errors_from. cbn [for_each]. now rewrite bind_assoc. Qed.

Lemma warn_errors_from_app (before after : list (exc_class * list exc)) (fr : Frame) :
  warn_errors_from host (before ++ after) fr =
  (for_each before (warn_errors_body host) ;; warn_errors_from host after) fr.
Proof.
  unfold warn_errors_from. rewrite <- bind_assoc.
  rewrite !(bind_unfold _ (fun _ => lmsg _)). now rewrite for_each_app.
Qed.

(** A call on a batch that is not empty runs the loop from its head. *)
Lemma warn_errors_nonempty (errs : Batch) (ig : list exc_class) :
  errs <> [] ->
  warn_errors host (new_frame errs ig) = warn_errors_from host errs (new_frame errs ig).
Proof.
  intro H. unfold warn_errors. rewrite bind_unfold. cbn [load_errors outcome events frame].
  cbn [new_frame errors]. destruct errs as [|it errs]; [congruence|].
  cbn [py_not iteritems app]. apply run_eta.
Qed.



(** The loop reaches the item after [before] when the items of [before]
    raise nothing; the call then consists of the events of these items,
    those of the item and those of the rest of the function. *)
Lemma warn_errors_reach (before after : list (exc_class * list exc))
      (it : exc_class * list exc) (ig : list exc_class) :
  let errs := (before ++ it :: after)%list in
  let pre := for_each before (warn_errors_body host) (new_frame errs ig) in
  let iteration := warn_errors_body host it (frame pre) in
  outcome pre = Ok tt ->
  events (warn_errors host (new_frame errs ig)) =
    (events pre ++ events iteration ++
     match outcome iteration with
     | Ok _ => events (warn_errors_from host after (frame iteration))
     | Raise _ => []
     end)%list /\
  errors (frame pre) = errs /\ ignore (frame pre) = ig.
Proof.
  intros errs pre iteration Hpre.
  split; [|apply (warn_errors_loop_frame host before (new_frame errs ig))].
  rewrite warn_errors_nonempty by (subst errs; destruct before; discriminate).
  subst errs. rewrite warn_errors_from_app, bind_unfold.
  fold pre. rewrite Hpre. cbn [events].
  rewrite warn_errors_from_cons, bind_unfold. fold iteration.
  destruct (outcome iteration) as [[]|e]; cbn [events]; [reflexivity|].
  now rewrite app_nil_r.
Qed.

End WarnErrorsSteps.

Lemma dict_key_once (before after : list (exc_class * list exc))
      (k : exc_class) (l : list exc) :
  NoDup (map fst (before ++ (k, l) :: after)) ->
  ~ In k (map fst before) /\ ~ In k (map fst after).
Proof.
  rewrite map_app. cbn [map fst]. intro H.
  apply NoDup_remove_2 in H. rewrite in_app_iff in H. tauto.
Qed.

Lemma notifications_app (a b : list Event) :
  notifications (a ++ b) = (notifications a ++ notifications b)%list.
Proof. unfold notifications. now rewrite flat_map_app. Qed.

Lemma log_lines_app (a b : list Event) :
  log_lines (a ++ b) = (log_lines a ++ log_lines b)%list.
Proof. unfold log_lines. now rewrite flat_map_app. Qed.

Lemma notifications_kind_log (k : exc_class) (l : list exc) :
  notifications (kind_log k l) = [].
Proof.
  unfold kind_log, notifications. cbn [flat_map app].
  induction l as [|x l IH]; [reflexivity | exact IH].
Qed.

Lemma log_lines_kind_log (k : exc_class) (l : list exc) :
  log_lines (kind_log k l) = separator :: header k :: map path_line l.
Proof.
  unfold kind_log, log_lines. cbn [flat_map app]. do 2 f_equal.
  induction l as [|x l IH]; [reflexivity|]. cbn [map flat_map app]. now rewrite IH.
Qed.

(* ------------------------------------------------------------------------- *)
(** ** The report of [warn_errors] *)
(* ------------------------------------------------------------------------- *)

(** C5: on the empty batch [warn_errors] returns at once: it logs no line,
    not even a separator, shows no message box and leaves its arguments as
    they are, whatever the ignore list. *)
Theorem warn_errors_empty_batch (host : string -> bool) (ig : list exc_class) :
  warn_errors host (new_frame [] ig) = mkRun [] (new_frame [] ig) (Ok tt) /\
  log_lines (events (warn_errors host (new_frame [] ig))) = [] /\
  notifications (events (warn_errors host (new_frame [] ig))) = [].
Proof. repeat split. Qed.

(** C9: when the first class visited has no instance and is not ignored,
    [warn_errors] logs the separator and the header of that class and then
    raises [UnboundLocalError]: the message box step reads the local
    [error], which no iteration of the inner loop has bound.  No message box
    is shown and the rest of the batch is not visited. *)
Theorem warn_errors_first_kind_empty (host : string -> bool) (k : exc_class)
        (rest : Batch) (ig : list exc_class) :
  ~ In k ig ->
  events (warn_errors host (new_frame ((k, []) :: rest) ig)) =
    [Lmsg separator; Lmsg (header k)] /\
  outcome (warn_errors host (new_frame ((k, []) :: rest) ig)) =
    Raise (UnboundLocalError "error").
Proof.
  intro Hk. apply py_in_not_In in Hk.
  rewrite warn_errors_nonempty by discriminate.
  rewrite warn_errors_from_cons, bind_unfold, warn_errors_body_run.
  cbv zeta. cbn [new_frame ignore error]. rewrite Hk.
  unfold error_after. cbn. now split.
Qed.

Lemma warn_errors_first_kind_empty_witness :
  ~ In CoverageParsingError [] /\
  events (warn_errors host_available (new_frame batch_empty_first [])) =
    [Lmsg separator; Lmsg "Files reporting PARSE_FAILURE:"] /\
  outcome (warn_errors host_available (new_frame batch_empty_first [])) =
    Raise (UnboundLocalError "error").
Proof.
  split; [intros [] |].
  apply (warn_errors_first_kind_empty host_available CoverageParsingError
           [(CoverageMissingError, [missing_b])] []).
  intros [].
Defined.

(** C1, as the code has it: take a class [k] of the batch that is not
    ignored and has a last instance [e], and suppose the iterations of the
    classes before it raised nothing, so that the loop reaches [k].  Then the
    iteration of [k], the only one for this class, logs the lines of [k] and
    then calls the message box exactly once, with the verbose message of
    [e]; the run consists of the events of the classes before, these events
    and, when the message box returns, the events of the rest of the
    function. *)
Theorem warn_errors_notifies_once_with_last (host : string -> bool)
        (before after : list (exc_class * list exc)) (k : exc_class)
        (l : list exc) (ig : list exc_class) (e : exc) :
  let errs := (before ++ (k, l) :: after)%list in
  let pre := for_each before (warn_errors_body host) (new_frame errs ig) in
  let iteration := warn_errors_body host (k, l) (frame pre) in
  NoDup (map fst errs) ->
  ~ In k ig ->
  last_error l = Some e ->
  outcome pre = Ok tt ->
  ~ In k (map fst before) /\ ~ In k (map fst after) /\
  events iteration = (kind_log k l ++ [Warning (verbose e)])%list /\
  notifications (events iteration) = [verbose e] /\
  events (warn_errors host (new_frame errs ig)) =
    (events pre ++ events iteration ++
     if host (verbose e)
     then events (warn_errors_from host after (frame iteration))
     else [])%list.
Proof.
  intros errs pre iteration Hdict Hk Hlast Hpre.
  destruct (dict_key_once before after k l Hdict) as [Hb Ha].
  destruct (warn_errors_reach host before after (k, l) ig Hpre) as [Hrun [He Hi]].
  fold errs pre iteration in Hrun, He, Hi.
  apply py_in_not_In in Hk.
  assert (Hit : iteration =
                mkRun (kind_log k l ++ [Warning (verbose e)])
                      (mkFrame errs ig (Some e))
                      (if host (verbose e) then Ok tt else Raise HostError)).
  { unfold iteration. rewrite warn_errors_body_run. cbv zeta.
    rewrite Hi, He, Hk, (error_after_last l e _ Hlast). reflexivity. }
  repeat split; try assumption.
  - now rewrite Hit.
  - rewrite Hit. cbn [events].
    now rewrite notifications_app, notifications_kind_log.
  - rewrite Hrun. rewrite Hit at 2. cbn [outcome].
    now destruct (host (verbose e)).
Qed.

Lemma warn_errors_notifies_once_with_last_witness :
  NoDup (map fst batch_two_kinds) /\
  ~ In CoverageMissingError default_ignore /\
  last_error [missing_b; missing_c] = Some missing_c /\
  notifications
    (events (warn_errors_body host_available
               (CoverageMissingError, [missing_b; missing_c])
               (frame (for_each [(CoverageParsingError, [parse_a])]
                                (warn_errors_body host_available)
                                (new_frame batch_two_kinds default_ignore)))))
  = [verbose missing_c].
Proof.
  assert (Hd : NoDup (map fst batch_two_kinds)).
  { repeat constructor; simpl; intuition discriminate. }
  assert (Hk : ~ In CoverageMissingError default_ignore) by (intros []).
  split; [exact Hd | split; [exact Hk | split; [reflexivity |]]].
  destruct (warn_errors_notifies_once_with_last host_available
              [(CoverageParsingError, [parse_a])] [] CoverageMissingError
              [missing_b; missing_c] default_ignore missing_c Hd Hk eq_refl eq_refl)
    as (_ & _ & _ & H & _).
  exact H.
Defined.

(** C3, as the code has it: take a class [k] of the batch that is ignored,
    and suppose the iterations of the classes before it raised nothing, so
    that the loop reaches [k].  Then the iteration of [k], the only one for
    this class, calls no message box and logs the separator, the header of
    [k] and one line per instance with its file path, in the order of the
    list; it raises nothing and the function goes on with the classes
    after [k]. *)
Theorem warn_errors_ignored_kind_only_logged (host : string -> bool)
        (before after : list (exc_class * list exc)) (k : exc_class)
        (l : list exc) (ig : list exc_class) :
  let errs := (before ++ (k, l) :: after)%list in
  let pre := for_each before (warn_errors_body host) (new_frame errs ig) in
  let iteration := warn_errors_body host (k, l) (frame pre) in
  NoDup (map fst errs) ->
  In k ig ->
  outcome pre = Ok tt ->
  ~ In k (map fst before) /\ ~ In k (map fst after) /\
  notifications (events iteration) = [] /\
  log_lines (events iteration) = separator :: header k :: map path_line l /\
  outcome iteration = Ok tt /\
  events (warn_errors host (new_frame errs ig)) =
    (events pre ++ events iteration ++
     events (warn_errors_from host after (frame iteration)))%list.
Proof.
  intros errs pre iteration Hdict Hk Hpre.
  destruct (dict_key_once before after k l Hdict) as [Hb Ha].
  destruct (warn_errors_reach host before after (k, l) ig Hpre) as [Hrun [He Hi]].
  fold errs pre iteration in Hrun, He, Hi.
  apply py_in_In in Hk.
  assert (Hit : iteration =
                mkRun (kind_log k l)
                      (mkFrame errs ig (error_after l (error (frame pre))))
                      (Ok tt)).
  { unfold iteration. rewrite warn_errors_body_run. cbv zeta.
    rewrite Hi, He, Hk. reflexivity. }
  repeat split; try assumption.
  - rewrite Hit. apply notifications_kind_log.
  - rewrite Hit. apply log_lines_kind_log.
  - now rewrite Hit.
  - rewrite Hrun. now rewrite Hit at 2.
Qed.

Lemma warn_errors_ignored_kind_only_logged_witness :
  NoDup (map fst batch_two_kinds) /\
  In CoverageMissingError [CoverageMissingError] /\
  log_lines
    (events (warn_errors_body host_available
               (CoverageMissingError, [missing_b; missing_c])
               (frame (for_each [(CoverageParsingError, [parse_a])]
                                (warn_errors_body host_available)
                                (new_frame batch_two_kinds [CoverageMissingError])))))
  = [separator; "Files reporting NO_COVERAGE_ERROR:"; " - b.cov"; " - c.cov"].
Proof.
  assert (Hd : NoDup (map fst batch_two_kinds)).
  { repeat constructor; simpl; intuition discriminate. }
  assert (Hk : In CoverageMissingError [CoverageMissingError]) by (now left).
  split; [exact Hd | split; [exact Hk |]].
  destruct (warn_errors_ignored_kind_only_logged host_available
              [(CoverageParsingError, [parse_a])] [] CoverageMissingError
              [missing_b; missing_c] [CoverageMissingError] Hd Hk eq_refl)
    as (_ & _ & _ & H & _).
  exact H.
Defined.

Lemma separator_lines_app (a b : list Event) :
  separator_lines (a ++ b) = separator_lines a + separator_lines b.
Proof.
  unfold separator_lines. now rewrite log_lines_app, filter_app, length_app.
Qed.

Lemma separator_lines_kind_log (k : exc_class) (l : list exc) :
  separator_lines (kind_log k l) = 1.
Proof.
  unfold separator_lines. rewrite log_lines_kind_log.
  cbn [filter]. change (separator =? separator) with true.
  change (header k =? separator) with false. cbn [List.length]. f_equal.
  induction l as [|x l IH]; [reflexivity|].
  cbn [map filter]. change (path_line x =? separator) with false. exact IH.
Qed.

Lemma kinds_with_instances_no_empty (d : Batch) :
  no_empty_list d -> kinds_with_instances d = List.length d.
Proof.
  unfold kinds_with_instances, no_empty_list.
  induction d as [|[k l] d IH]; intro H; [reflexivity|].
  cbn [filter snd]. destruct l as [|x l].
  - exfalso. apply (H k []); [now left | reflexivity].
  - cbn [List.length]. f_equal. apply IH. intros k' l' Hin. apply (H k' l'). now right.
Qed.

Section WarnErrorsReport.

Variable host : string -> bool.

(** The events of an iteration that raises nothing hold one separator. *)
Lemma warn_errors_body_separators (it : exc_class * list exc) (fr : Frame) :
  outcome (warn_errors_body host it fr) = Ok tt ->
  separator_lines (events (warn_errors_body host it fr)) = 1.
Proof.
  destruct it as [k l]. rewrite warn_errors_body_run. cbv zeta.
  destruct (py_in k (ignore fr)); cbn [events];
    [intros _; apply separator_lines_kind_log|].
  destruct (error_after l (error fr)) as [e|]; cbn [events outcome];
    [|discriminate].
  intros _. rewrite separator_lines_app, separator_lines_kind_log. reflexivity.
Qed.

Lemma warn_errors_from_separators (items : list (exc_class * list exc)) (fr : Frame) :
  outcome (warn_errors_from host items fr) = Ok tt ->
  separator_lines (events (warn_errors_from host items fr)) = List.length items + 1.
Proof.
  revert fr. induction items as [|it items IH]; intro fr; [reflexivity|].
  rewrite warn_errors_from_cons, bind_unfold.
  destruct (outcome (warn_errors_body host it fr)) as [[]|e] eqn:Hit;
    cbn [outcome events]; [|discriminate].
  intro Hrest. rewrite separator_lines_app, (IH _ Hrest).
  rewrite (warn_errors_body_separators it fr Hit). reflexivity.
Qed.


End WarnErrorsReport.



(* ------------------------------------------------------------------------- *)
(** ** Runs on which the report is cut short or counts an empty class *)
(* ------------------------------------------------------------------------- *)

(** C1 fails as stated.  [CoverageMissingError] is in the batch, is not
    ignored and has a last instance, yet no message box is shown for it:
    with a headless host the call for [CoverageParsingError] raises and ends
    the function; with an empty list for the class visited first the
    function ends before any message box. *)
Lemma warn_errors_notification_missing :
  (In (CoverageMissingError, [missing_b; missing_c]) batch_two_kinds /\
   ~ In CoverageMissingError default_ignore /\
   last_error [missing_b; missing_c] = Some missing_c /\
   notifications
     (events (warn_errors host_headless (new_frame batch_two_kinds default_ignore)))
   = [verbose parse_a] /\
   ~ In (verbose missing_c)
        (notifications
           (events (warn_errors host_headless (new_frame batch_two_kinds default_ignore)))))
  /\
  (In (CoverageMissingError, [missing_b]) batch_empty_first /\
   ~ In CoverageMissingError default_ignore /\
   last_error [missing_b] = Some missing_b /\
   notifications
     (events (warn_errors host_available (new_frame batch_empty_first default_ignore)))
   = []).
Proof.
  split.
  - split; [right; left; reflexivity|]. split; [intros []|].
    split; [reflexivity|]. split; [reflexivity|].
    intros [H | []]. vm_compute in H. discriminate.
  - split; [right; left; reflexivity|]. split; [intros []|].
    split; reflexivity.
Qed.


(** C3 fails as stated.  [CoverageMissingError] is in the batch and is
    ignored, yet neither its header nor the lines of its instances are
    logged: the function ended in the iteration of the class before it, on
    the failure of the message box of a headless host, or on the unbound
    local when that class has no instance. *)
Lemma warn_errors_ignored_kind_not_reached :
  (In (CoverageMissingError, [missing_b; missing_c]) batch_two_kinds /\
   In CoverageMissingError [CoverageMissingError] /\
   log_lines
     (events (warn_errors host_headless
                (new_frame batch_two_kinds [CoverageMissingError])))
   = [separator; "Files reporting PARSE_FAILURE:"; " - a.cov"])
  /\
  (In (CoverageMissingError, [missing_b]) batch_empty_first /\
   In CoverageMissingError [CoverageMissingError] /\
   log_lines
     (events (warn_errors host_available
                (new_frame batch_empty_first [CoverageMissingError])))
   = [separator; "Files reporting PARSE_FAILURE:"]).
Proof.
  split; (split; [right; left; reflexivity|]); (split; [now left | reflexivity]).
Qed.

(** C6 fails as stated: a batch whose only class has an empty list and is
    ignored gets two separator lines, one pair, although it has no class
    with an instance. *)
Lemma warn_errors_separator_for_empty_kind :
  batch_only_empty <> [] /\
  outcome (warn_errors host_available (new_frame batch_only_empty [CoverageParsingError]))
  = Ok tt /\
  log_lines
    (events (warn_errors host_available (new_frame batch_only_empty [CoverageParsingError])))
  = [separator; "Files reporting PARSE_FAILURE:"; separator] /\
  separator_lines
    (events (warn_errors host_available (new_frame batch_only_empty [CoverageParsingError])))
  = 2 /\
  kinds_with_instances batch_only_empty = 0.
Proof. split; [discriminate | repeat split]. Qed.

(* ------------------------------------------------------------------------- *)
(** ** The report in full, and the message box of a class without instance *)
(* ------------------------------------------------------------------------- *)

Lemma warn_errors_from_report (host : string -> bool)
      (items : list (exc_class * list exc)) (fr : Frame) :
  no_empty_list items ->
  outcome (warn_errors_from host items fr) = Ok tt ->
  events (warn_errors_from host items fr) = batch_report (ignore fr) items.
Proof.
  revert fr. induction items as [|[k l] items IH]; intros fr Hne; [reflexivity|].
  assert (Hl : l <> []) by (apply (Hne k l); now left).
  assert (Hne' : no_empty_list items)
    by (intros k' l' Hin; apply (Hne k' l'); now right).
  destruct (last_error_nonempty l Hl) as [e0 He0].
  rewrite warn_errors_from_cons, bind_unfold, warn_errors_body_run. cbv zeta.
  rewrite (error_after_last l e0 _ He0).
  unfold batch_report. cbn [flat_map]. unfold kind_report at 1. cbn [fst snd].
  rewrite He0.
  set (fr' := mkFrame (errors fr) (ignore fr) (Some e0)).
  specialize (IH fr' Hne'). cbn [ignore fr'] in IH. unfold batch_report in IH.
  destruct (py_in k (ignore fr)); cbn [outcome events frame].
  - intro Hok. rewrite (IH Hok). now rewrite app_nil_r, <- app_assoc.
  - destruct (host (verbose e0)); cbn [outcome events frame]; [|discriminate].
    intro Hok. rewrite (IH Hok). now rewrite <- !app_assoc.
Qed.

(** X1: when [warn_errors] returns from a batch that is not empty and has no
    empty list, its calls are, class after class in the iteration order of
    the batch: the separator, the header of the class, one line per instance
    and, unless the class is ignored, one message box with the verbose
    message of the last instance; then the closing separator. *)
Theorem warn_errors_report_in_full (host : string -> bool) (errs : Batch)
        (ig : list exc_class) :
  errs <> [] ->
  no_empty_list errs ->
  outcome (warn_errors host (new_frame errs ig)) = Ok tt ->
  events (warn_errors host (new_frame errs ig)) = batch_report ig errs.
Proof.
  intros Hne Hnel. rewrite warn_errors_nonempty by exact Hne.
  apply (warn_errors_from_report host errs (new_frame errs ig) Hnel).
Qed.

Lemma warn_errors_report_in_full_witness :
  batch_two_kinds <> [] /\
  no_empty_list batch_two_kinds /\
  outcome (warn_errors host_available (new_frame batch_two_kinds [CoverageParsingError]))
  = Ok tt /\
  events (warn_errors host_available (new_frame batch_two_kinds [CoverageParsingError]))
  = [Lmsg separator; Lmsg "Files reporting PARSE_FAILURE:"; Lmsg " - a.cov";
     Lmsg separator; Lmsg "Files reporting NO_COVERAGE_ERROR:";
     Lmsg " - b.cov"; Lmsg " - c.cov"; Warning (verbose missing_c);
     Lmsg separator].
Proof.
  assert (Hne : batch_two_kinds <> []) by discriminate.
  assert (Hnel : no_empty_list batch_two_kinds).
  { intros k l [H | [H | []]]; injection H as <- <-; discriminate. }
  split; [exact Hne | split; [exact Hnel | split; [reflexivity |]]].
  exact (warn_errors_report_in_full host_available batch_two_kinds
           [CoverageParsingError] Hne Hnel eq_refl).
Defined.

Lemma bind_ok {A B : Type} (m : M A) (k : A -> M B) (fr : Frame) (b : B) :
  outcome (bind m k fr) = Ok b ->
  exists a, outcome (m fr) = Ok a /\
            outcome (k a (frame (m fr))) = Ok b /\
            frame (bind m k fr) = frame (k a (frame (m fr))).
Proof.
  rewrite bind_unfold. destruct (outcome (m fr)) as [a|e]; cbn [outcome frame].
  - intro H. exists a. now repeat split.
  - discriminate.
Qed.

(** An iteration leaves [error] as the inner loop did: bound to the last
    instance of the list, or as it was when the list is empty. *)
Lemma warn_errors_body_error (host : string -> bool) (k : exc_class)
      (l : list exc) (fr : Frame) :
  error (frame (warn_errors_body host (k, l) fr)) = error_after l (error fr).
Proof.
  rewrite warn_errors_body_run. cbv zeta.
  destruct (py_in k (ignore fr)); [reflexivity|].
  now destruct (error_after l (error fr)).
Qed.

Lemma warn_errors_loop_keeps_error (host : string -> bool)
      (items : list (exc_class * list exc)) (fr : Frame) (e : exc) :
  (forall k l, In (k, l) items -> l = []) ->
  error fr = Some e ->
  outcome (for_each items (warn_errors_body host) fr) = Ok tt ->
  error (frame (for_each items (warn_errors_body host) fr)) = Some e.
Proof.
  revert fr. induction items as [|[k l] items IH]; intros fr Hall He Hok; [exact He|].
  cbn [for_each] in *. apply bind_ok in Hok.
  destruct Hok as [[] [Hbody [Hrest Hfr]]]. rewrite Hfr.
  apply IH; [intros k' l' Hin; apply (Hall k' l'); now right | | exact Hrest].
  rewrite warn_errors_body_error, (Hall k l) by now left. exact He.
Qed.

(** After a class with instances and classes without, [error] is the last
    instance of the former. *)
Lemma warn_errors_loop_binds_last (host : string -> bool)
      (before middle : list (exc_class * list exc)) (k1 : exc_class)
      (l1 : list exc) (e1 : exc) (fr : Frame) :
  last_error l1 = Some e1 ->
  (forall k l, In (k, l) middle -> l = []) ->
  outcome (for_each (before ++ (k1, l1) :: middle) (warn_errors_body host) fr) = Ok tt ->
  error (frame (for_each (before ++ (k1, l1) :: middle) (warn_errors_body host) fr))
  = Some e1.
Proof.
  intros Hlast Hall. rewrite for_each_app. intro Hok.
  apply bind_ok in Hok. destruct Hok as [[] [_ [Hrest Hfr]]]. rewrite Hfr.
  set (fr0 := frame (for_each before (warn_errors_body host) fr)) in *.
  cbn [for_each] in *. apply bind_ok in Hrest.
  destruct Hrest as [[] [_ [Hmiddle Hfr']]]. rewrite Hfr'.
  apply warn_errors_loop_keeps_error; [exact Hall | | exact Hmiddle].
  rewrite warn_errors_body_error. now apply error_after_last.
Qed.

(** X2: take a class [k] with an empty list that is not ignored, reached
    after a class [k1] with instances, with only classes without instance in
    between, no iteration before [k] having raised.  Then the iteration of
    [k] logs the separator and the header of [k] and calls the message box
    once, with the verbose message of the last instance of [k1]: the value
    [error] still holds. *)
Theorem warn_errors_empty_kind_shows_stale_error (host : string -> bool)
        (before middle after : list (exc_class * list exc)) (k1 k : exc_class)
        (l1 : list exc) (e1 : exc) (ig : list exc_class) :
  let visited := (before ++ (k1, l1) :: middle)%list in
  let errs := (visited ++ (k, []) :: after)%list in
  let pre := for_each visited (warn_errors_body host) (new_frame errs ig) in
  let iteration := warn_errors_body host (k, []) (frame pre) in
  last_error l1 = Some e1 ->
  (forall k' l', In (k', l') middle -> l' = []) ->
  ~ In k ig ->
  outcome pre = Ok tt ->
  events iteration = [Lmsg separator; Lmsg (header k); Warning (verbose e1)] /\
  events (warn_errors host (new_frame errs ig)) =
    (events pre ++ events iteration ++
     if host (verbose e1)
     then events (warn_errors_from host after (frame iteration))
     else [])%list.
Proof.
  intros visited errs pre iteration Hlast Hmiddle Hk Hpre.
  destruct (warn_errors_reach host visited after (k, []) ig Hpre) as [Hrun [He Hi]].
  fold errs pre iteration in Hrun, He, Hi. apply py_in_not_In in Hk.
  assert (Hstale : error (frame pre) = Some e1)
    by (apply warn_errors_loop_binds_last; assumption).
  assert (Hit : iteration =
                mkRun [Lmsg separator; Lmsg (header k); Warning (verbose e1)]
                      (mkFrame errs ig (Some e1))
                      (if host (verbose e1) then Ok tt else Raise HostError)).
  { unfold iteration. rewrite warn_errors_body_run. cbv zeta.
    rewrite Hi, He, Hk. unfold error_after. cbn [last_error].
    rewrite Hstale. reflexivity. }
  split; [now rewrite Hit|].
  rewrite Hrun. rewrite Hit at 2. cbn [outcome]. now destruct (host (verbose e1)).
Qed.

Lemma warn_errors_empty_kind_shows_stale_error_witness :
  last_error [parse_a; missing_c] = Some missing_c /\
  ~ In CoverageParsingError default_ignore /\
  verbose parse_a <> verbose missing_c /\
  events (warn_errors_body host_available (CoverageParsingError, [])
            (frame (for_each [(CoverageMissingError, [parse_a; missing_c])]
                             (warn_errors_body host_available)
                             (new_frame batch_stale default_ignore))))
  = [Lmsg separator; Lmsg "Files reporting PARSE_FAILURE:";
     Warning (verbose_text CoverageMissingError)].
Proof.
  assert (Hk : ~ In CoverageParsingError default_ignore) by (intros []).
  assert (Hmiddle : forall (k' : exc_class) (l' : list exc),
             In (k', l') (@nil (exc_class * list exc)) -> l' = []) by (intros k' l' []).
  split; [reflexivity | split; [exact Hk | split]].
  - intro H. vm_compute in H. discriminate H.
  - exact (proj1 (warn_errors_empty_kind_shows_stale_error host_available
                    [] [] [] CoverageMissingError CoverageParsingError
                    [parse_a; missing_c] missing_c default_ignore
                    eq_refl Hmiddle Hk eq_refl)).
Defined.

(** X3: the scenario of a parse failure for a.cov, ignored, and two
    suspicious mappings built from the coverage objects of b.cov and c.cov:
    a.cov is logged under the header of the parse failures without message
    box, b.cov and c.cov are logged under the header of the suspicious
    mappings, and the one message box shows the verbose message of the
    instance of c.cov. *)
Theorem warn_errors_scenario :
  CoverageMappingSuspicious_init [PyCoverage cov_b] = Ok (suspicious cov_b) /\
  CoverageMappingSuspicious_init [PyCoverage cov_c] = Ok (suspicious cov_c) /\
  log_lines
    (events (warn_errors host_available (new_frame batch_scenario [CoverageParsingError])))
  = [separator; "Files reporting PARSE_FAILURE:"; " - a.cov";
     separator; "Files reporting BAD_COVERAGE_MAPPING:"; " - b.cov"; " - c.cov";
     separator] /\
  notifications
    (events (warn_errors host_available (new_frame batch_scenario [CoverageParsingError])))
  = [verbose (suspicious cov_c)] /\
  outcome (warn_errors host_available (new_frame batch_scenario [CoverageParsingError]))
  = Ok tt.
Proof. repeat split. Qed.

(* ------------------------------------------------------------------------- *)
(** ** The texts of the classes *)
(* ------------------------------------------------------------------------- *)

(** X4: what the four subclass constructors build.  Each hands its own
    fixed message to the base constructor, which keeps it in [args], and
    sets the file path: the one given or, for the two mapping warnings, the
    [filepath] of the coverage object.  None assigns [message], so the short
    rendering of the instance raises [AttributeError]. *)
Theorem str_of_constructed_instances :
  (forall (p : string) (tb : list (string * string)),
      args (CoverageParsingError_init p tb) = ["Failed to parse coverage file"] /\
      filepath (CoverageParsingError_init p tb) = p /\
      extra (CoverageParsingError_init p tb) = Tracebacks tb /\
      __str__ (CoverageParsingError_init p tb) = Raise (AttributeError "message")) /\
  (forall p : string,
      args (CoverageMissingError_init p) = ["No coverage extracted from file"] /\
      filepath (CoverageMissingError_init p) = p /\
      __str__ (CoverageMissingError_init p) = Raise (AttributeError "message")) /\
  (forall (arguments : list PyValue) (self : exc),
      CoverageMappingAbsent_init arguments = Ok self ->
      exists coverage : Coverage,
        arguments = [PyCoverage coverage] /\
        args self = ["No coverage data could be mapped"] /\
        filepath self = coverage_filepath coverage /\
        __str__ self = Raise (AttributeError "message")) /\
  (forall (arguments : list PyValue) (self : exc),
      CoverageMappingSuspicious_init arguments = Ok self ->
      exists coverage : Coverage,
        arguments = [PyCoverage coverage] /\
        args self = ["Coverage data appears badly mapped"] /\
        filepath self = coverage_filepath coverage /\
        __str__ self = Raise (AttributeError "message")).
Proof.
  split; [intros p tb; repeat split|]. split; [intro p; repeat split|].
  split; intros arguments self H;
    destruct arguments as [|v [|w arguments]]; try discriminate;
    destruct v as [| s | cov]; try discriminate;
    injection H as <-; exists cov; repeat split.
Qed.

Lemma verbose_of_class (e : exc) :
  verbose e = verbose (CoverageException_init (cls e) "" "").
Proof. reflexivity. Qed.

(** X5: the verbose message tells the class: two instances have the same
    verbose message exactly when they are of the same class. *)
Theorem verbose_identifies_class (e1 e2 : exc) :
  verbose e1 = verbose e2 <-> cls e1 = cls e2.
Proof.
  split.
  - rewrite (verbose_of_class e1), (verbose_of_class e2).
    destruct (cls e1), (cls e2); intro H; try reflexivity;
      vm_compute in H; discriminate H.
  - intro H. unfold verbose. now rewrite H.
Qed.

(** X6: the lines of the log tell what they are.  The header tells the
    class and the line of an instance its file path; a header is never the
    separator, and the line of an instance is neither the separator nor a
    header, whatever the file path. *)
Theorem log_lines_unambiguous :
  (forall k1 k2 : exc_class, header k1 = header k2 <-> k1 = k2) /\
  (forall e1 e2 : exc, path_line e1 = path_line e2 <-> filepath e1 = filepath e2) /\
  (forall k : exc_class, header k <> separator) /\
  (forall e : exc, path_line e <> separator) /\
  (forall (e : exc) (k : exc_class), path_line e <> header k).
Proof.
  split; [|split; [|split; [|split]]].
  - intros k1 k2. split; [|now intros ->].
    destruct k1, k2; intro H; try reflexivity; vm_compute in H; discriminate H.
  - intros e1 e2. unfold path_line. split; [|now intros ->].
    intro H. now injection H.
  - intro k. unfold header, separator. cbn. discriminate.
  - intro e. unfold path_line, separator. cbn. discriminate.
  - intros e k. unfold path_line, header. cbn. discriminate.
Qed.

(* ------------------------------------------------------------------------- *)
(** ** How a call of [warn_errors] can end *)
(* ------------------------------------------------------------------------- *)

Lemma error_after_bound (l : list exc) (e : exc) :
  exists e', error_after l (Some e) = Some e'.
Proof. unfold error_after. destruct (last_error l) as [e'|]; eauto. Qed.

Lemma error_after_nil (b : option exc) : error_after [] b = b.
Proof. reflexivity. Qed.

Lemma error_after_filled (x : exc) (l : list exc) (b : option exc) :
  exists e, error_after (x :: l) b = Some e.
Proof. rewrite error_after_cons. apply error_after_bound. Qed.

Section WarnErrorsOutcome.

Variable host : string -> bool.

(** One step of the loop, ready for a case analysis on the ignore list, the
    local [error] and the host. *)
Lemma warn_errors_from_step (k : exc_class) (l : list exc)
      (items : list (exc_class * list exc)) (fr : Frame) :
  warn_errors_from host ((k, l) :: items) fr =
  let fr' := mkFrame (errors fr) (ignore fr) (error_after l (error fr)) in
  let rest := warn_errors_from host items fr' in
  if py_in k (ignore fr) then
    mkRun (kind_log k l ++ events rest) (frame rest) (outcome rest)
  else
    match error_after l (error fr) with
    | Some e =>
        if host (verbose e) then
          mkRun ((kind_log k l ++ [Warning (verbose e)]) ++ events rest)
                (frame rest) (outcome rest)
        else mkRun (kind_log k l ++ [Warning (verbose e)]) fr' (Raise HostError)
    | None => mkRun (kind_log k l) fr' (Raise (UnboundLocalError "error"))
    end.
Proof.
  rewrite warn_errors_from_cons, bind_unfold, warn_errors_body_run. cbv zeta.
  destruct (py_in k (ignore fr)); [reflexivity|].
  destruct (error_after l (error fr)) as [e|]; [|reflexivity].
  now destruct (host (verbose e)).
Qed.

(** The three ways the function can end. *)
Lemma warn_errors_from_outcomes (items : list (exc_class * list exc)) (fr : Frame) :
  outcome (warn_errors_from host items fr) = Ok tt \/
  outcome (warn_errors_from host items fr) = Raise HostError \/
  outcome (warn_errors_from host items fr) = Raise (UnboundLocalError "error").
Proof.
  revert fr. induction items as [|[k l] items IH]; intro fr; [now left|].
  rewrite warn_errors_from_step. cbv zeta.
  destruct (py_in k (ignore fr)); [apply IH|].
  destruct (error_after l (error fr)) as [e|]; [|now right; right].
  destruct (host (verbose e)); [apply IH | now right; left].
Qed.

(** Once bound, [error] stays bound: no read of it fails any more. *)
Lemma warn_errors_from_bound (items : list (exc_class * list exc)) (fr : Frame) (e : exc) :
  error fr = Some e ->
  outcome (warn_errors_from host items fr) <> Raise (UnboundLocalError "error").
Proof.
  revert fr e. induction items as [|[k l] items IH]; intros fr e He; [discriminate|].
  rewrite warn_errors_from_step. cbv zeta. rewrite He.
  destruct (error_after_bound l e) as [e' He']. rewrite He'.
  destruct (py_in k (ignore fr)); [now apply (IH _ e')|].
  destruct (host (verbose e')); [now apply (IH _ e') | discriminate].
Qed.

Lemma warn_errors_from_unbound (items : list (exc_class * list exc)) (fr : Frame) :
  error fr = None ->
  outcome (warn_errors_from host items fr) = Raise (UnboundLocalError "error") <->
  unbound_read (ignore fr) items = true.
Proof.
  revert fr. induction items as [|[k l] items IH]; intros fr He.
  - split; discriminate.
  - rewrite warn_errors_from_step. cbv zeta. rewrite He.
    destruct l as [|x l].
    + rewrite error_after_nil. cbn [unbound_read].
      destruct (py_in k (ignore fr)); [|now split].
      apply (IH (mkFrame (errors fr) (ignore fr) None)). reflexivity.
    + destruct (error_after_filled x l None) as [e' He']. rewrite He'.
      cbn [unbound_read]. split; [|discriminate]. intro H. exfalso. revert H.
      destruct (py_in k (ignore fr)); [now apply (warn_errors_from_bound _ _ e')|].
      destruct (host (verbose e')); [now apply (warn_errors_from_bound _ _ e') | discriminate].
Qed.

(** A host whose message box never fails gives no [HostError]. *)
Lemma warn_errors_from_host_returns (items : list (exc_class * list exc)) (fr : Frame) :
  (forall text, host text = true) ->
  outcome (warn_errors_from host items fr) <> Raise HostError.
Proof.
  intro Hhost. revert fr. induction items as [|[k l] items IH]; intro fr; [discriminate|].
  rewrite warn_errors_from_step. cbv zeta.
  destruct (py_in k (ignore fr)); [apply IH|].
  destruct (error_after l (error fr)) as [e|]; [|discriminate].
  rewrite Hhost. apply IH.
Qed.

End WarnErrorsOutcome.

Lemma warn_errors_outcomes (host : string -> bool) (errs : Batch) (ig : list exc_class) :
  outcome (warn_errors host (new_frame errs ig)) = Ok tt \/
  outcome (warn_errors host (new_frame errs ig)) = Raise HostError \/
  outcome (warn_errors host (new_frame errs ig)) = Raise (UnboundLocalError "error").
Proof.
  destruct errs as [|it errs]; [now left|].
  rewrite warn_errors_nonempty by discriminate. apply warn_errors_from_outcomes.
Qed.

Lemma warn_errors_unbound (host : string -> bool) (errs : Batch) (ig : list exc_class) :
  outcome (warn_errors host (new_frame errs ig)) = Raise (UnboundLocalError "error") <->
  unbound_read ig errs = true.
Proof.
  destruct errs as [|it errs]; [split; discriminate|].
  rewrite warn_errors_nonempty by discriminate.
  apply (warn_errors_from_unbound host (it :: errs) (new_frame (it :: errs) ig)).
  reflexivity.
Qed.

(** X7: a call of [warn_errors] returns, raises the failure of the message
    box or raises [UnboundLocalError] for [error], and nothing else.  It
    raises [UnboundLocalError] exactly when the batch has a class without
    instance that is not ignored and all the classes visited before it are
    ignored and without instance too. *)
Theorem warn_errors_unbound_local_iff (host : string -> bool) (errs : Batch)
        (ig : list exc_class) :
  (outcome (warn_errors host (new_frame errs ig)) = Ok tt \/
   outcome (warn_errors host (new_frame errs ig)) = Raise HostError \/
   outcome (warn_errors host (new_frame errs ig)) = Raise (UnboundLocalError "error")) /\
  (outcome (warn_errors host (new_frame errs ig)) = Raise (UnboundLocalError "error") <->
   unbound_read ig errs = true) /\
  (unbound_read ig errs = true <->
   exists before k after,
     errs = (before ++ (k, []) :: after)%list /\
     ~ In k ig /\
     forall k' l', In (k', l') before -> l' = [] /\ In k' ig).
Proof.
  split; [apply warn_errors_outcomes | split; [apply warn_errors_unbound |]].
  - induction errs as [|[k l] errs IH].
    + split; [discriminate|]. intros [before [k [after [H _]]]].
      destruct before; discriminate.
    + cbn [unbound_read]. destruct l as [|x l].
      * destruct (py_in k ig) eqn:Hk.
        -- apply py_in_In in Hk. rewrite IH. split.
           ++ intros [before [k0 [after [-> [Hk0 Hall]]]]].
              exists ((k, []) :: before), k0, after. split; [reflexivity|].
              split; [exact Hk0|]. intros k' l' [Heq | Hin].
              ** injection Heq as <- <-. now split.
              ** now apply Hall.
           ++ intros [before [k0 [after [Heq [Hk0 Hall]]]]].
              destruct before as [|b before].
              ** injection Heq as -> _. contradiction.
              ** injection Heq as <- ->. exists before, k0, after.
                 split; [reflexivity|]. split; [exact Hk0|].
                 intros k' l' Hin. apply Hall. now right.
        -- apply py_in_not_In in Hk. split; [|reflexivity]. intros _.
           exists [], k, errs. split; [reflexivity|]. split; [exact Hk|].
           intros k' l' [].
      * split; [discriminate|]. intros [before [k0 [after [Heq [Hk0 Hall]]]]].
        destruct before as [|b before].
        -- discriminate.
        -- injection Heq as <- _. destruct (Hall k (x :: l)) as [H _]; [now left|].
           discriminate.
Qed.

(** X8: with a host whose message box never fails, [warn_errors] returns
    exactly when no class is read with [error] unbound; an empty list after
    a class with instances, or in an ignored class, does not stop it. *)
Theorem warn_errors_returns_iff_bound (host : string -> bool) (errs : Batch)
        (ig : list exc_class) :
  (forall text, host text = true) ->
  (outcome (warn_errors host (new_frame errs ig)) = Ok tt <->
   unbound_read ig errs = false).
Proof.
  intro Hhost.
  pose proof (warn_errors_outcomes host errs ig) as Hout.
  pose proof (warn_errors_unbound host errs ig) as Hiff.
  assert (Hno : outcome (warn_errors host (new_frame errs ig)) <> Raise HostError).
  { destruct errs as [|it errs]; [discriminate|].
    rewrite warn_errors_nonempty by discriminate.
    now apply warn_errors_from_host_returns. }
  destruct (unbound_read ig errs).
  - split; [|discriminate]. intro Hok. destruct Hiff as [_ Hiff].
    rewrite Hiff in Hok by reflexivity. discriminate.
  - split; [reflexivity|]. intros _.
    destruct Hout as [H | [H | H]]; [exact H | contradiction|].
    apply Hiff in H. discriminate.
Qed.

Lemma warn_errors_returns_iff_bound_witness :
  (forall text, host_available text = true) /\
  unbound_read default_ignore batch_empty_second = false /\
  outcome (warn_errors host_available (new_frame batch_empty_second default_ignore)) = Ok tt.
Proof.
  assert (Hhost : forall text, host_available text = true) by reflexivity.
  split; [exact Hhost | split; [reflexivity |]].
  apply (warn_errors_returns_iff_bound host_available batch_empty_second
           default_ignore Hhost).
  reflexivity.
Defined.

(* ------------------------------------------------------------------------- *)
(** ** What is logged and what is shown, on every run *)
(* ------------------------------------------------------------------------- *)

Lemma log_lines_warning (text : string) : log_lines [Warning text] = [].
Proof. reflexivity. Qed.

Lemma notifications_warning (text : string) : notifications [Warning text] = [text].
Proof. reflexivity. Qed.

Lemma full_log_cons (k : exc_class) (l : list exc) (d : Batch) :
  full_log ((k, l) :: d) = (log_lines (kind_log k l) ++ full_log d)%list.
Proof.
  unfold full_log. cbn [flat_map fst snd]. rewrite log_lines_kind_log.
  now rewrite <- app_assoc.
Qed.

Lemma full_log_not_nil (d : Batch) : full_log d <> [].
Proof. unfold full_log. intro H. apply app_eq_nil in H. destruct H. discriminate. Qed.

Lemma last_error_In (l : list exc) (e : exc) : last_error l = Some e -> In e l.
Proof.
  induction l as [|x l IH]; [discriminate|].
  destruct l as [|y l'].
  - intro H. injection H as <-. now left.
  - intro H. right. apply IH. exact H.
Qed.

Lemma error_after_In (l : list exc) (b : option exc) (e : exc) :
  error_after l b = Some e -> In e l \/ b = Some e.
Proof.
  unfold error_after. destruct (last_error l) as [e'|] eqn:E.
  - intro H. injection H as <-. left. now apply last_error_In.
  - intro H. now right.
Qed.

Section WarnErrorsEveryRun.

Variable host : string -> bool.

(** What is logged is the start of the full log, and all of it exactly when
    the function returns. *)
Lemma warn_errors_from_log (items : list (exc_class * list exc)) (fr : Frame) :
  exists rest,
    full_log items = (log_lines (events (warn_errors_from host items fr)) ++ rest)%list /\
    (rest = [] <-> outcome (warn_errors_from host items fr) = Ok tt).
Proof.
  revert fr. induction items as [|[k l] items IH]; intro fr.
  - exists []. now split.
  - rewrite warn_errors_from_step, full_log_cons. cbv zeta.
    set (fr' := mkFrame (errors fr) (ignore fr) (error_after l (error fr))).
    destruct (IH fr') as [rest [Hlog Hiff]].
    destruct (py_in k (ignore fr)); cbn [events outcome].
    + exists rest. split; [|exact Hiff].
      now rewrite log_lines_app, Hlog, app_assoc.
    + destruct (error_after l (error fr)) as [e|].
      * destruct (host (verbose e)); cbn [events outcome].
        -- exists rest. split; [|exact Hiff].
           rewrite !log_lines_app, log_lines_warning, app_nil_r, Hlog.
           now rewrite app_assoc.
        -- exists (full_log items). split.
           ++ now rewrite log_lines_app, log_lines_warning, app_nil_r.
           ++ split; [intro H; now apply full_log_not_nil in H | discriminate].
      * cbn [events outcome]. exists (full_log items). split; [reflexivity|].
        split; [intro H; now apply full_log_not_nil in H | discriminate].
Qed.

(** A run over classes that are all ignored shows nothing and returns. *)
Lemma warn_errors_from_all_ignored (items : list (exc_class * list exc)) (fr : Frame) :
  (forall k l, In (k, l) items -> In k (ignore fr)) ->
  outcome (warn_errors_from host items fr) = Ok tt /\
  notifications (events (warn_errors_from host items fr)) = [].
Proof.
  revert fr. induction items as [|[k l] items IH]; intros fr Hall; [now split|].
  rewrite warn_errors_from_step. cbv zeta.
  assert (Hk : py_in k (ignore fr) = true) by (apply py_in_In, (Hall k l); now left).
  rewrite Hk. cbn [events outcome].
  destruct (IH (mkFrame (errors fr) (ignore fr) (error_after l (error fr)))) as [Hok Hno].
  { intros k' l' Hin. apply (Hall k' l'). now right. }
  split; [exact Hok|].
  now rewrite notifications_app, notifications_kind_log, Hno.
Qed.

(** At most one message box per class that is not ignored, and each shows
    the verbose message of an instance of [pool], which holds the instances
    of the classes to visit and the one [error] is bound to. *)
Lemma warn_errors_from_notifications (items : list (exc_class * list exc))
      (fr : Frame) (pool : list exc) :
  (forall e, error fr = Some e -> In e pool) ->
  (forall k l e, In (k, l) items -> In e l -> In e pool) ->
  List.length (notifications (events (warn_errors_from host items fr)))
    <= List.length (not_ignored (ignore fr) items) /\
  forall text, In text (notifications (events (warn_errors_from host items fr))) ->
               exists e, In e pool /\ text = verbose e.
Proof.
  revert fr. induction items as [|[k l] items IH]; intros fr Hfr Hitems.
  - split; [apply Nat.le_refl | intros text []].
  - rewrite warn_errors_from_step. cbv zeta.
    set (fr' := mkFrame (errors fr) (ignore fr) (error_after l (error fr))).
    assert (Hfr' : forall e, error fr' = Some e -> In e pool).
    { intros e He. cbn [fr' error] in He.
      destruct (error_after_In l (error fr) e He) as [Hin | Hprev].
      - apply (Hitems k l e); [now left | exact Hin].
      - now apply Hfr. }
    destruct (IH fr' Hfr') as [Hlen Htexts].
    { intros k' l' e Hin. apply (Hitems k' l' e). now right. }
    cbn [ignore fr'] in Hlen.
    unfold not_ignored. cbn [filter fst]. fold (not_ignored (ignore fr) items).
    destruct (py_in k (ignore fr)); cbn [negb events].
    + rewrite notifications_app, notifications_kind_log. cbn [app].
      split; [exact Hlen | exact Htexts].
    + cbn [List.length].
      destruct (error_after l (error fr)) as [e|] eqn:He.
      * assert (He_pool : In e pool) by (apply Hfr'; reflexivity).
        destruct (host (verbose e)); cbn [events].
        -- rewrite !notifications_app, notifications_kind_log, notifications_warning.
           cbn [app List.length]. split; [now apply le_n_S|].
           intros text [<- | Hin]; [now exists e | now apply Htexts].
        -- rewrite notifications_app, notifications_kind_log, notifications_warning.
           cbn [app List.length]. split; [apply le_n_S, Nat.le_0_l|].
           intros text [<- | []]. now exists e.
      * cbn [events]. rewrite notifications_kind_log. cbn [List.length].
        split; [apply Nat.le_0_l | intros text []].
Qed.

End WarnErrorsEveryRun.

(** A run reads the ignore list only through membership tests. *)
Lemma warn_errors_from_same_members (host : string -> bool)
      (items : list (exc_class * list exc)) (fr1 fr2 : Frame) :
  error fr1 = error fr2 ->
  (forall k, In k (ignore fr1) <-> In k (ignore fr2)) ->
  events (warn_errors_from host items fr1) = events (warn_errors_from host items fr2) /\
  outcome (warn_errors_from host items fr1) = outcome (warn_errors_from host items fr2).
Proof.
  revert fr1 fr2. induction items as [|[k l] items IH]; intros fr1 fr2 He Hmem;
    [now split|].
  rewrite !warn_errors_from_step. cbv zeta. rewrite <- He.
  assert (Hk : py_in k (ignore fr1) = py_in k (ignore fr2)).
  { destruct (py_in k (ignore fr2)) eqn:H2.
    - apply py_in_In. apply Hmem. now apply py_in_In.
    - apply py_in_not_In. intro H. apply Hmem in H. now apply py_in_not_In in H2. }
  rewrite <- Hk.
  destruct (IH (mkFrame (errors fr1) (ignore fr1) (error_after l (error fr1)))
               (mkFrame (errors fr2) (ignore fr2) (error_after l (error fr1)))
               eq_refl Hmem) as [Hev Hout].
  destruct (py_in k (ignore fr1)); cbn [events outcome].
  - now rewrite Hev, Hout.
  - destruct (error_after l (error fr1)) as [e|]; [|now split].
    destruct (host (verbose e)); cbn [events outcome]; [|now split].
    now rewrite Hev, Hout.
Qed.

(** X9: on a batch that is not empty, the lines [warn_errors] logs are
    always the start of the full log of the batch, whatever the ignore list
    and the host, and they are the full log, closing separator included,
    exactly when the call returns. *)
Theorem warn_errors_log_prefix (host : string -> bool) (errs : Batch)
        (ig : list exc_class) :
  errs <> [] ->
  exists rest,
    full_log errs =
      (log_lines (events (warn_errors host (new_frame errs ig))) ++ rest)%list /\
    (rest = [] <-> outcome (warn_errors host (new_frame errs ig)) = Ok tt).
Proof.
  intro Hne. rewrite warn_errors_nonempty by exact Hne. apply warn_errors_from_log.
Qed.

Lemma warn_errors_log_prefix_witness :
  batch_empty_first <> [] /\
  exists rest,
    full_log batch_empty_first =
      (log_lines (events (warn_errors host_available
                            (new_frame batch_empty_first default_ignore))) ++ rest)%list /\
    (rest = [] <->
     outcome (warn_errors host_available (new_frame batch_empty_first default_ignore))
     = Ok tt).
Proof.
  assert (Hne : batch_empty_first <> []) by discriminate.
  split; [exact Hne |].
  exact (warn_errors_log_prefix host_available batch_empty_first default_ignore Hne).
Defined.

(** X10: when every class of the batch is ignored, [warn_errors] shows no
    message box and returns, even with a headless host and with classes
    without instance; it logs the batch in full. *)
Theorem warn_errors_all_ignored (host : string -> bool) (errs : Batch)
        (ig : list exc_class) :
  (forall k l, In (k, l) errs -> In k ig) ->
  outcome (warn_errors host (new_frame errs ig)) = Ok tt /\
  notifications (events (warn_errors host (new_frame errs ig))) = [] /\
  (errs <> [] ->
   log_lines (events (warn_errors host (new_frame errs ig))) = full_log errs).
Proof.
  intro Hall. destruct errs as [|it errs]; [split; [|split]; try reflexivity; congruence|].
  rewrite warn_errors_nonempty by discriminate.
  destruct (warn_errors_from_all_ignored host (it :: errs) (new_frame (it :: errs) ig) Hall)
    as [Hok Hno].
  split; [exact Hok | split; [exact Hno |]]. intros _.
  destruct (warn_errors_from_log host (it :: errs) (new_frame (it :: errs) ig))
    as [rest [Hlog Hiff]].
  apply Hiff in Hok. subst rest. now rewrite app_nil_r in Hlog.
Qed.

Lemma warn_errors_all_ignored_witness :
  (forall k l, In (k, l) batch_all_ignored ->
               In k [CoverageMissingError; CoverageParsingError]) /\
  outcome (warn_errors host_headless
             (new_frame batch_all_ignored [CoverageMissingError; CoverageParsingError]))
  = Ok tt /\
  notifications
    (events (warn_errors host_headless
               (new_frame batch_all_ignored [CoverageMissingError; CoverageParsingError])))
  = [].
Proof.
  assert (Hall : forall k l, In (k, l) batch_all_ignored ->
                             In k [CoverageMissingError; CoverageParsingError]).
  { intros k l [H | [H | []]]; injection H as <- _; simpl; tauto. }
  split; [exact Hall |].
  destruct (warn_errors_all_ignored host_headless batch_all_ignored
              [CoverageMissingError; CoverageParsingError] Hall) as (Hok & Hno & _).
  split; [exact Hok | exact Hno].
Defined.

(** X11: on every run, [warn_errors] shows at most one message box per
    class of the batch that is not ignored, and each text shown is the
    verbose message of an instance of the batch. *)
Theorem warn_errors_notifications_bounded (host : string -> bool) (errs : Batch)
        (ig : list exc_class) :
  List.length (notifications (events (warn_errors host (new_frame errs ig))))
    <= List.length (not_ignored ig errs) /\
  forall text,
    In text (notifications (events (warn_errors host (new_frame errs ig)))) ->
    exists k l e, In (k, l) errs /\ In e l /\ text = verbose e.
Proof.
  destruct errs as [|it errs]; [split; [apply Nat.le_refl | intros text []]|].
  rewrite warn_errors_nonempty by discriminate.
  destruct (warn_errors_from_notifications host (it :: errs)
              (new_frame (it :: errs) ig) (instances (it :: errs))) as [Hlen Htexts].
  - intros e He. discriminate He.
  - intros k l e Hin He. unfold instances. apply in_flat_map.
    exists (k, l). now split.
  - split; [exact Hlen|]. intros text Hin.
    destruct (Htexts text Hin) as [e [He ->]].
    unfold instances in He. apply in_flat_map in He.
    destruct He as [[k l] [Hkl Hel]]. exists k, l, e. now repeat split.
Qed.

(** X12: [warn_errors] reads the ignore list only through membership
    tests: two ignore lists with the same members, in whatever order and
    number, give the same calls and the same outcome. *)
Theorem warn_errors_ignore_by_membership (host : string -> bool) (errs : Batch)
        (ig1 ig2 : list exc_class) :
  (forall k, In k ig1 <-> In k ig2) ->
  events (warn_errors host (new_frame errs ig1)) =
  events (warn_errors host (new_frame errs ig2)) /\
  outcome (warn_errors host (new_frame errs ig1)) =
  outcome (warn_errors host (new_frame errs ig2)).
Proof.
  intro Hmem. destruct errs as [|it errs]; [now split|].
  rewrite !warn_errors_nonempty by discriminate.
  now apply warn_errors_from_same_members.
Qed.

Lemma warn_errors_ignore_by_membership_witness :
  (forall k, In k [CoverageParsingError; CoverageMissingError] <->
             In k [CoverageMissingError; CoverageParsingError; CoverageMissingError]) /\
  events (warn_errors host_available
            (new_frame batch_two_kinds [CoverageParsingError; CoverageMissingError])) =
  events (warn_errors host_available
            (new_frame batch_two_kinds
               [CoverageMissingError; CoverageParsingError; CoverageMissingError])).
Proof.
  assert (Hmem : forall k, In k [CoverageParsingError; CoverageMissingError] <->
                           In k [CoverageMissingError; CoverageParsingError;
                                 CoverageMissingError])
    by (intro k; simpl; tauto).
  split; [exact Hmem |].
  exact (proj1 (warn_errors_ignore_by_membership host_available batch_two_kinds
                  [CoverageParsingError; CoverageMissingError]
                  [CoverageMissingError; CoverageParsingError; CoverageMissingError]
                  Hmem)).
Defined.

(* ------------------------------------------------------------------------- *)
(** ** The separators of the log *)
(* ------------------------------------------------------------------------- *)

(** C6, as the code has it: when [warn_errors] returns from a batch that is
    not empty, what it has logged is the full log of the batch: for each
    class of the batch, a class with an empty list of instances included,
    one separator line, then the header and the lines of the instances, and
    after the last class the closing separator.  So the separator lines are
    one per class and the closing one; when no list is empty this is one
    more than the number of classes with at least one instance. *)
Theorem warn_errors_separator_count (host : string -> bool) (errs : Batch)
        (ig : list exc_class) :
  errs <> [] ->
  outcome (warn_errors host (new_frame errs ig)) = Ok tt ->
  log_lines (events (warn_errors host (new_frame errs ig))) =
    (flat_map (fun it => separator :: header (fst it) :: map path_line (snd it)) errs
     ++ [separator])%list /\
  separator_lines (events (warn_errors host (new_frame errs ig))) = List.length errs + 1 /\
  (no_empty_list errs ->
   separator_lines (events (warn_errors host (new_frame errs ig))) =
   kinds_with_instances errs + 1).
Proof.
  intros Hne Hok. rewrite warn_errors_nonempty in * by exact Hne.
  split; [|split].
  - destruct (warn_errors_from_log host errs (new_frame errs ig)) as [rest [Hlog Hiff]].
    apply Hiff in Hok. subst rest. rewrite app_nil_r in Hlog. now rewrite <- Hlog.
  - apply (warn_errors_from_separators host errs _ Hok).
  - intro H. rewrite (warn_errors_from_separators host errs _ Hok).
    now rewrite kinds_with_instances_no_empty.
Qed.

Lemma warn_errors_separator_count_witness :
  batch_two_kinds <> [] /\
  outcome (warn_errors host_available (new_frame batch_two_kinds default_ignore)) = Ok tt /\
  log_lines (events (warn_errors host_available (new_frame batch_two_kinds default_ignore)))
  = [separator; "Files reporting PARSE_FAILURE:"; " - a.cov";
     separator; "Files reporting NO_COVERAGE_ERROR:"; " - b.cov"; " - c.cov";
     separator] /\
  separator_lines
    (events (warn_errors host_available (new_frame batch_two_kinds default_ignore))) = 3.
Proof.
  assert (Hne : batch_two_kinds <> []) by discriminate.
  split; [exact Hne | split; [reflexivity |]].
  destruct (warn_errors_separator_count host_available batch_two_kinds
              default_ignore Hne eq_refl) as (Hlog & Hcount & _).
  split; [exact Hlog | exact Hcount].
Defined.

(* ------------------------------------------------------------------------- *)
(** ** Two calls in a row *)
(* ------------------------------------------------------------------------- *)






